(** * lwIP system-architecture port for Darwin: [sys_arch.c]

    A shallow embedding of the two functions of
    [lwip/src/darwin/src/sys_arch.c],

<<
    u32_t sys_now(void) {
        clock_t i = clock() / (CLOCKS_PER_SEC / 1000);
        return (u32_t)i;
    }

    void sys_init(void) { }
>>

    together with the properties the port description states about them.

    [clock_t] is Darwin's [unsigned long]; counter values and
    [CLOCKS_PER_SEC] are therefore modelled in [N].  The only narrowing in
    the file is the cast to [u32_t], written out as a remainder modulo
    [2^32].  Division by zero is undefined behaviour in C and is modelled as
    the absence of a result. *)

From Stdlib Require Import NArith ZArith Lia List Bool Sorted.
Import ListNotations.

Local Open Scope N_scope.

(** Linear arithmetic with the quotients and remainders turned into their
    Euclidean equations first. *)
Ltac div_lia := zify; Z.to_euclidean_division_equations; lia.
Ltac div_nia := zify; Z.to_euclidean_division_equations; nia.

(** ** C integer arithmetic used by the port *)

Module CArith.

Definition U32_MODULUS : N := 2 ^ 32.

(** [(u32_t) x] for an unsigned [x]. *)
Definition to_u32 (x : N) : N := x mod U32_MODULUS.

(** [a / b] on an unsigned type; undefined when [b] is zero. *)
Definition udiv (a b : N) : option N :=
  if b =? 0 then None else Some (a / b).

Definition is_u32 (x : N) : Prop := x < U32_MODULUS.

(** Modelled from the spec: the caller's "unsigned 32-bit subtraction"
    [later - earlier] of two readings, which lives in the protocol stack
    core and not in the port. *)
Definition u32_sub (later earlier : N) : N :=
  Z.to_N ((Z.of_N later - Z.of_N earlier) mod Z.of_N U32_MODULUS).

End CArith.

Import CArith.

(** ** The Darwin host constants of [<time.h>] *)

Module Darwin.

(** [#define CLOCKS_PER_SEC 1000000] *)
Definition CLOCKS_PER_SEC : N := 1000000.

(** Largest value of [clock_t] ([unsigned long], 64 bits). *)
Definition CLOCK_T_MAX : N := 2 ^ 64 - 1.

End Darwin.

(** ** Program and host state, and computations over it *)

Section Machine.

(** Everything in the program and the host that the port never names:
    memory, descriptors, the stack's own tables. *)
Context {X : Type}.

Record world : Type := mkWorld {
  cpu_ticks : N;   (** processor time used by the process, the value of [clock()] *)
  real_ms   : N;   (** real time since the process started, in milliseconds *)
  rest      : X
}.

(** A C computation: it reads and may change the world, and has no
    result at all when it runs into undefined behaviour. *)
Definition exec (A : Type) : Type := world -> option (A * world).

Definition ret {A} (a : A) : exec A := fun w => Some (a, w).

Definition bind {A B} (m : exec A) (k : A -> exec B) : exec B :=
  fun w => match m w with
           | Some (a, w') => k a w'
           | None => None
           end.

Definition defined {A} (o : option A) : exec A :=
  fun w => match o with
           | Some a => Some (a, w)
           | None => None
           end.

(** [clock()] of [<time.h>]: the processor time used so far. *)
Definition clock : exec N := fun w => Some (cpu_ticks w, w).

End Machine.

Arguments world X : clear implicits.
Arguments exec X A : clear implicits.

Declare Scope exec_scope.
Delimit Scope exec_scope with exec.
Notation "x <- m ;; k" := (bind m (fun x => k))
  (at level 61, m at next level, right associativity) : exec_scope.

(** ** The two functions of [sys_arch.c] *)

Section SysArch.

Variable CLOCKS_PER_SEC : N.

(** The value [sys_now] returns when [clock()] yields [c]:
    [(u32_t)(c / (CLOCKS_PER_SEC / 1000))]. *)
Definition sys_now_at (c : N) : option N :=
  match udiv CLOCKS_PER_SEC 1000 with
  | None => None
  | Some d =>
      match udiv c d with
      | None => None
      | Some i => Some (to_u32 i)
      end
  end.

Context {X : Type}.

Definition sys_now : exec X N :=
  (c <- clock ;;
   d <- defined (udiv CLOCKS_PER_SEC 1000) ;;
   i <- defined (udiv c d) ;;
   ret (to_u32 i))%exec.

Definition sys_init : exec X unit := ret tt.

End SysArch.

(** ** The environment of the port *)

Section Environment.

Context {X : Type}.

(** The passage of time between two calls of the layer: [ms]
    milliseconds of real time go by, and the process is charged [ticks]
    counter ticks of processor time meanwhile.  Nothing else changes. *)
Definition elapse (ms ticks : N) (w : world X) : world X :=
  {| cpu_ticks := cpu_ticks w + ticks;
     real_ms := real_ms w + ms;
     rest := rest w |}.

Variable CLOCKS_PER_SEC : N.

(** What the protocol stack and the host do with the layer, one event at
    a time. *)
Inductive event : Type :=
| CallInit
| CallNow
| Elapse (ms ticks : N).

Definition is_init (e : event) : bool :=
  match e with
  | CallInit => true
  | _ => false
  end.

(** Running a sequence of events; the result lists the readings of the
    [sys_now] calls in order. *)
Fixpoint run (evs : list event) : exec X (list N) :=
  match evs with
  | [] => ret []
  | CallInit :: evs' =>
      (_ <- sys_init ;; run evs')%exec
  | CallNow :: evs' =>
      (r <- sys_now CLOCKS_PER_SEC ;;
       rs <- run evs' ;;
       ret (r :: rs))%exec
  | Elapse ms ticks :: evs' =>
      fun w => run evs' (elapse ms ticks w)
  end.

(** [n] calls of [sys_init] in a row. *)
Fixpoint sys_init_times (n : nat) : exec X unit :=
  match n with
  | O => ret tt
  | S n' => (_ <- sys_init ;; sys_init_times n')%exec
  end.

End Environment.

Arguments event : clear implicits.

(** ** The words of the port description *)

(** Modelled from the spec: "process CPU time scaled to milliseconds", the
    whole milliseconds in [c] ticks of a counter that makes
    [CLOCKS_PER_SEC] ticks a second. *)
Definition cpu_time_ms (CLOCKS_PER_SEC c : N) : N :=
  c * 1000 / CLOCKS_PER_SEC.

(** A world for examples: nothing besides the two clocks. *)
Definition idle_world (ticks ms : N) : world unit :=
  {| cpu_ticks := ticks; real_ms := ms; rest := tt |}.

(** ** Whole runs of the layer *)

Definition is_now (e : event) : bool :=
  match e with
  | CallNow => true
  | _ => false
  end.

(** The world after the passage of time of a sequence of events alone,
    the calls of the layer skipped. *)
Fixpoint time_passed {X : Type} (evs : list event) (w : world X) : world X :=
  match evs with
  | [] => w
  | Elapse ms ticks :: evs' => time_passed evs' (elapse ms ticks w)
  | _ :: evs' => time_passed evs' w
  end.

(** ** Basic facts *)

Lemma to_u32_is_u32 (x : N) : is_u32 (to_u32 x).
Proof.
  unfold is_u32, to_u32, U32_MODULUS. apply N.mod_lt. discriminate.
Qed.

Lemma to_u32_small (x : N) : is_u32 x -> to_u32 x = x.
Proof.
  unfold is_u32, to_u32. intros H. now apply N.mod_small.
Qed.

Lemma udiv_defined (a b : N) : b <> 0 -> udiv a b = Some (a / b).
Proof.
  intros Hb. unfold udiv. destruct (N.eqb_spec b 0); [contradiction | reflexivity].
Qed.

Lemma udiv_undefined (a : N) : udiv a 0 = None.
Proof. reflexivity. Qed.

Lemma ms_divisor_nonzero (CPS : N) : 1000 <= CPS -> CPS / 1000 <> 0.
Proof. intros H. div_lia. Qed.

Lemma ms_divisor_zero (CPS : N) : CPS < 1000 -> CPS / 1000 = 0.
Proof. intros H. now apply N.div_small. Qed.

(** On a host whose counter makes at least a thousand ticks a second the
    body of [sys_now] is the closed formula. *)
Lemma sys_now_at_formula (CPS c : N) :
  1000 <= CPS -> sys_now_at CPS c = Some (to_u32 (c / (CPS / 1000))).
Proof.
  intros H. unfold sys_now_at.
  rewrite (udiv_defined CPS 1000) by discriminate.
  rewrite udiv_defined by now apply ms_divisor_nonzero.
  reflexivity.
Qed.

Lemma sys_now_at_undefined (CPS c : N) :
  CPS < 1000 -> sys_now_at CPS c = None.
Proof.
  intros H. unfold sys_now_at.
  rewrite (udiv_defined CPS 1000) by discriminate.
  rewrite ms_divisor_zero by assumption. reflexivity.
Qed.

(** The function reads the counter, computes [sys_now_at] on it and leaves
    the world as it found it. *)
Lemma sys_now_run {X : Type} (CPS : N) (w : world X) :
  sys_now CPS w =
  match sys_now_at CPS (cpu_ticks w) with
  | Some r => Some (r, w)
  | None => None
  end.
Proof.
  unfold sys_now, sys_now_at, bind, clock, defined, ret.
  destruct (udiv CPS 1000) as [d|]; [|reflexivity].
  destruct (udiv (cpu_ticks w) d); reflexivity.
Qed.

(** The function has a result exactly on the hosts whose counter makes at
    least a thousand ticks a second. *)
Lemma sys_now_defined_iff {X : Type} (CPS : N) (w : world X) :
  sys_now CPS w <> None <-> 1000 <= CPS.
Proof.
  rewrite sys_now_run. split.
  - intros Hdef. destruct (N.le_gt_cases 1000 CPS) as [Hle|Hlt]; [exact Hle|].
    rewrite sys_now_at_undefined in Hdef by assumption. contradiction.
  - intros Hle. rewrite sys_now_at_formula by assumption. discriminate.
Qed.

(** The caller's subtraction sees the true difference of two unreduced
    values, whatever the reduction did to each of them. *)
Lemma u32_sub_to_u32 (a b : N) :
  a <= b -> u32_sub (to_u32 b) (to_u32 a) = to_u32 (b - a).
Proof.
  intros H. unfold u32_sub, to_u32, U32_MODULUS.
  change (2 ^ 32) with 4294967296. div_lia.
Qed.

Lemma u32_sub_is_u32 (a b : N) : is_u32 (u32_sub a b).
Proof.
  unfold is_u32, u32_sub, U32_MODULUS.
  change (2 ^ 32) with 4294967296. div_lia.
Qed.

(** Scaling by the divisor [CLOCKS_PER_SEC / 1000] is scaling to
    milliseconds when the counter makes a whole number of ticks a
    millisecond. *)
Lemma scaled_is_cpu_time_ms (CPS c : N) :
  0 < CPS -> CPS mod 1000 = 0 -> c / (CPS / 1000) = cpu_time_ms CPS c.
Proof.
  intros Hpos Hmul. unfold cpu_time_ms.
  assert (Hd : CPS = 1000 * (CPS / 1000)) by div_lia.
  assert (Hd0 : CPS / 1000 <> 0) by div_lia.
  rewrite Hd at 2.
  rewrite (N.mul_comm c 1000).
  rewrite N.Div0.div_mul_cancel_l by discriminate.
  reflexivity.
Qed.

(** Scaling is monotone in the counter. *)
Lemma scaled_monotone (d c1 c2 : N) : c1 <= c2 -> c1 / d <= c2 / d.
Proof. intros H. now apply N.Div0.div_le_mono. Qed.

(** Whole multiples of the divisor come out of the quotient. *)
Lemma scaled_add_multiple (d c j : N) :
  d <> 0 -> (c + j * d) / d = c / d + j.
Proof. intros Hd. now apply N.div_add. Qed.

(** Two readings taken [k] ticks apart differ by the quotient of [k], or
    by one more. *)
Lemma scaled_difference (d c k : N) :
  d <> 0 ->
  k / d <= (c + k) / d - c / d <= k / d + 1.
Proof. intros Hd. div_nia. Qed.

Lemma to_u32_add_period (x j : N) : to_u32 (x + j * U32_MODULUS) = to_u32 x.
Proof.
  unfold to_u32. apply N.Div0.mod_add.
Qed.

(** ** The clock: [sys_now] *)

(** C1, as stated, fails on two kinds of host.  Where the counter makes
    fewer than a thousand ticks a second (128 here) the divisor
    [CLOCKS_PER_SEC / 1000] is zero and the function returns nothing.  Where
    the ticks of a second are no multiple of a thousand (1500 here) the
    function returns 3000 for 3000 ticks, which are 2000 milliseconds. *)
Lemma sys_now_not_ms_on_every_host :
  sys_now 128 (idle_world 256 2) = None /\
  sys_now 1500 (idle_world 3000 2000) = Some (3000, idle_world 3000 2000) /\
  to_u32 (cpu_time_ms 1500 3000) = 2000.
Proof. repeat split; reflexivity. Qed.

(** C1 (amended): on every host whose [CLOCKS_PER_SEC] is a positive
    multiple of 1000, and for every value [c] of the counter, [sys_now]
    returns [(u32_t)(c / (CLOCKS_PER_SEC / 1000))], a value below [2^32],
    and changes nothing; the scaled value is the process CPU time of [c]
    ticks in whole milliseconds. *)
Theorem sys_now_returns_scaled_cpu_time {X : Type} (CPS : N) (w : world X) :
  0 < CPS -> CPS mod 1000 = 0 ->
  sys_now CPS w = Some (to_u32 (cpu_ticks w / (CPS / 1000)), w) /\
  is_u32 (to_u32 (cpu_ticks w / (CPS / 1000))) /\
  cpu_ticks w / (CPS / 1000) = cpu_time_ms CPS (cpu_ticks w).
Proof.
  intros Hpos Hmul.
  assert (H : 1000 <= CPS) by div_lia.
  split; [|split].
  - rewrite sys_now_run, sys_now_at_formula by assumption. reflexivity.
  - apply to_u32_is_u32.
  - now apply scaled_is_cpu_time_ms.
Qed.

Lemma sys_now_returns_scaled_cpu_time_witness :
  0 < Darwin.CLOCKS_PER_SEC /\
  Darwin.CLOCKS_PER_SEC mod 1000 = 0 /\
  sys_now Darwin.CLOCKS_PER_SEC (idle_world 2500000 9000) =
    Some (2500, idle_world 2500000 9000) /\
  cpu_time_ms Darwin.CLOCKS_PER_SEC 2500000 = 2500.
Proof.
  pose proof (sys_now_returns_scaled_cpu_time Darwin.CLOCKS_PER_SEC
                (idle_world 2500000 9000) eq_refl eq_refl) as [Hrun [_ Hms]].
  split; [reflexivity|]. split; [reflexivity|].
  split; [exact Hrun | symmetry; exact Hms].
Defined.

(** C3, as stated, fails: with [CLOCKS_PER_SEC] equal to 100 the divisor is
    zero, the division is undefined and no value is returned. *)
Lemma sys_now_undefined_at_100_ticks_per_second :
  sys_now 100 (idle_world 12345 200000) = None.
Proof. reflexivity. Qed.

(** C3 (amended): on every host whose [CLOCKS_PER_SEC] is at least 1000 (as
    on Darwin), and for every value of the counter, the computation of
    [sys_now] is defined, returns a value below [2^32] and leaves the world
    as it was; no undefined step is reached. *)
Theorem sys_now_does_not_fail {X : Type} (CPS : N) (w : world X) :
  1000 <= CPS ->
  exists r, sys_now CPS w = Some (r, w) /\ is_u32 r.
Proof.
  intros H. exists (to_u32 (cpu_ticks w / (CPS / 1000))).
  rewrite sys_now_run, sys_now_at_formula by assumption.
  split; [reflexivity | apply to_u32_is_u32].
Qed.

Lemma sys_now_does_not_fail_witness :
  1000 <= Darwin.CLOCKS_PER_SEC /\
  exists r, sys_now Darwin.CLOCKS_PER_SEC (idle_world Darwin.CLOCK_T_MAX 0) =
              Some (r, idle_world Darwin.CLOCK_T_MAX 0) /\ is_u32 r.
Proof.
  split; [vm_compute; discriminate|].
  apply (sys_now_does_not_fail Darwin.CLOCKS_PER_SEC
           (idle_world Darwin.CLOCK_T_MAX 0)).
  vm_compute; discriminate.
Defined.

(** What two readings taken [k] ticks apart look like to a caller that
    subtracts them in 32 bits: the true number of divisor boundaries
    crossed, reduced to 32 bits, whether or not a reading wrapped. *)
Lemma sys_now_difference {X : Type} (CPS : N) (w : world X) (ms k : N) :
  1000 <= CPS ->
  exists rA rB,
    sys_now CPS w = Some (rA, w) /\
    sys_now CPS (elapse ms k w) = Some (rB, elapse ms k w) /\
    u32_sub rB rA =
      to_u32 ((cpu_ticks w + k) / (CPS / 1000) - cpu_ticks w / (CPS / 1000)).
Proof.
  intros H.
  exists (to_u32 (cpu_ticks w / (CPS / 1000))),
         (to_u32 ((cpu_ticks w + k) / (CPS / 1000))).
  split; [|split].
  - rewrite sys_now_run, sys_now_at_formula by assumption. reflexivity.
  - rewrite sys_now_run, sys_now_at_formula by assumption. reflexivity.
  - apply u32_sub_to_u32, scaled_monotone. lia.
Qed.

(** C2, as stated, fails at both ends, because the readings follow the
    processor time the process is charged and not the real time that goes
    by.  A process on Darwin that is charged 40 ticks (40 microseconds)
    while it sleeps for 100 milliseconds reads 5000 before and 5000 after:
    the difference 0 is below 90.  A process whose other threads are
    charged 600000 ticks during the same 100 milliseconds reads 5000 and
    5600: the difference 600 is above 500. *)
Lemma sys_now_difference_zero_after_sleep :
  (sys_now Darwin.CLOCKS_PER_SEC (idle_world 5000000 0) =
     Some (5000, idle_world 5000000 0) /\
   sys_now Darwin.CLOCKS_PER_SEC (elapse 100 40 (idle_world 5000000 0)) =
     Some (5000, idle_world 5000040 100) /\
   u32_sub 5000 5000 = 0 /\
   ~ (90 <= u32_sub 5000 5000)) /\
  (sys_now Darwin.CLOCKS_PER_SEC (elapse 100 600000 (idle_world 5000000 0)) =
     Some (5600, idle_world 5600000 100) /\
   u32_sub 5600 5000 = 600 /\
   ~ (u32_sub 5600 5000 <= 500)).
Proof.
  split.
  - split; [reflexivity|]. split; [reflexivity|]. split; [reflexivity|].
    vm_compute. intros Hle. apply Hle. reflexivity.
  - split; [reflexivity|]. split; [reflexivity|].
    vm_compute. intros Hle. apply Hle. reflexivity.
Qed.

(** C2 (amended): for every pair of [sys_now] calls A then B separated by a
    real-time sleep of 100 ms, on a host with [CLOCKS_PER_SEC] at least
    1000, write [d] for [CLOCKS_PER_SEC / 1000] and [k] for the counter
    ticks the process is charged between the calls.  The 32-bit difference
    of the readings is the number of multiples of [d] the counter crossed
    meanwhile, reduced to 32 bits; it is never negative and below [2^32];
    it is at least 90 and at most 500 whenever [90 * d <= k <= 500 * d]; it
    is at least 90 only if [k > 89 * d]; and, for [k] below
    [(2^32 - 1) * d], it is at most 500 only if [k < 501 * d]. *)
Theorem sys_now_difference_after_sleep {X : Type} (CPS : N) (w : world X) (k : N) :
  1000 <= CPS ->
  exists rA rB,
    sys_now CPS w = Some (rA, w) /\
    sys_now CPS (elapse 100 k w) = Some (rB, elapse 100 k w) /\
    u32_sub rB rA =
      to_u32 ((cpu_ticks w + k) / (CPS / 1000) - cpu_ticks w / (CPS / 1000)) /\
    0 <= u32_sub rB rA /\
    is_u32 (u32_sub rB rA) /\
    (90 * (CPS / 1000) <= k <= 500 * (CPS / 1000) ->
     90 <= u32_sub rB rA <= 500) /\
    (90 <= u32_sub rB rA -> 89 * (CPS / 1000) < k) /\
    (k < (U32_MODULUS - 1) * (CPS / 1000) ->
     u32_sub rB rA <= 500 -> k < 501 * (CPS / 1000)).
Proof.
  intros H.
  destruct (sys_now_difference CPS w 100 k H) as (rA & rB & HA & HB & Hsub).
  exists rA, rB. split; [exact HA|]. split; [exact HB|].
  split; [exact Hsub|]. split; [apply N.le_0_l|].
  split; [apply u32_sub_is_u32|].
  set (d := CPS / 1000) in *. set (c := cpu_ticks w) in *.
  assert (Hd : d <> 0) by (apply ms_divisor_nonzero; assumption).
  pose proof (scaled_difference d c k Hd) as [Hlo Hhi].
  assert (Hmul : d * (k / d) <= k) by (apply N.Div0.mul_div_le).
  assert (Hrem : k < d * (k / d + 1)).
  { pose proof (N.div_mod k d Hd). pose proof (N.mod_lt k d Hd). lia. }
  rewrite Hsub. set (D := (c + k) / d - c / d) in *.
  assert (Hcast : to_u32 D <= D) by (apply N.Div0.mod_le).
  split; [|split].
  - intros [Hk90 Hk500].
    assert (Hq90 : 90 <= k / d) by (apply N.div_le_lower_bound; lia).
    assert (HD500 : D <= 500).
    { destruct (N.eq_dec k (500 * d)) as [E|NE].
      - subst D. rewrite E, scaled_add_multiple by assumption. lia.
      - assert (k / d < 500) by (apply N.Div0.div_lt_upper_bound; lia). lia. }
    rewrite to_u32_small
      by (unfold is_u32, U32_MODULUS; change (2 ^ 32) with 4294967296; lia).
    lia.
  - intros H90.
    assert (HD90 : 90 <= D) by lia.
    destruct (N.eq_dec (k / d) 89) as [E|NE]; [|nia].
    assert (HD : D = 90) by lia.
    subst D. clear - Hd E HD. div_nia.
  - intros Hk H500. unfold U32_MODULUS in Hk.
    change (2 ^ 32 - 1) with 4294967295 in Hk.
    assert (Hq : k / d < 4294967295) by (apply N.Div0.div_lt_upper_bound; lia).
    rewrite to_u32_small in H500
      by (unfold is_u32, U32_MODULUS; change (2 ^ 32) with 4294967296; lia).
    nia.
Qed.

Lemma sys_now_difference_after_sleep_witness :
  1000 <= Darwin.CLOCKS_PER_SEC /\
  exists rA rB,
    sys_now Darwin.CLOCKS_PER_SEC (idle_world 5000000 0) =
      Some (rA, idle_world 5000000 0) /\
    sys_now Darwin.CLOCKS_PER_SEC (elapse 100 95000 (idle_world 5000000 0)) =
      Some (rB, elapse 100 95000 (idle_world 5000000 0)) /\
    u32_sub rB rA = 95 /\
    90 <= u32_sub rB rA <= 500.
Proof.
  assert (H : 1000 <= Darwin.CLOCKS_PER_SEC) by (vm_compute; discriminate).
  split; [exact H|].
  destruct (sys_now_difference_after_sleep Darwin.CLOCKS_PER_SEC
              (idle_world 5000000 0) 95000 H)
    as (rA & rB & HA & HB & Hsub & _ & _ & Hin & _).
  exists rA, rB. split; [exact HA|]. split; [exact HB|].
  split; [rewrite Hsub; reflexivity|].
  apply Hin. split; vm_compute; discriminate.
Defined.

(** C4: on a host where the divisor is defined ([CLOCKS_PER_SEC] at least
    1000), for every counter value [c] the reading is
    [(c / (CLOCKS_PER_SEC / 1000)) mod 2^32].  The same formula serves every
    [c]: shifting the counter by any number of whole periods of the reading
    changes nothing, so no value of the counter is treated specially.  The
    wrap is undone by the caller's 32-bit subtraction, which yields the
    difference of the unreduced values modulo [2^32]. *)
Theorem sys_now_wraps_at_32_bits (CPS c : N) :
  1000 <= CPS ->
  sys_now_at CPS c = Some ((c / (CPS / 1000)) mod 2 ^ 32) /\
  (forall j, sys_now_at CPS (c + j * U32_MODULUS * (CPS / 1000)) = sys_now_at CPS c) /\
  (forall c' r r',
      c <= c' ->
      sys_now_at CPS c = Some r ->
      sys_now_at CPS c' = Some r' ->
      u32_sub r' r = (c' / (CPS / 1000) - c / (CPS / 1000)) mod 2 ^ 32).
Proof.
  intros H.
  assert (Hd : CPS / 1000 <> 0) by now apply ms_divisor_nonzero.
  split; [|split].
  - now apply sys_now_at_formula.
  - intros j. rewrite !sys_now_at_formula by assumption.
    rewrite scaled_add_multiple by assumption.
    now rewrite to_u32_add_period.
  - intros c' r r' Hle Hr Hr'.
    rewrite sys_now_at_formula in Hr, Hr' by assumption.
    injection Hr as <-. injection Hr' as <-.
    apply u32_sub_to_u32. now apply scaled_monotone.
Qed.

Lemma sys_now_wraps_at_32_bits_witness :
  1000 <= Darwin.CLOCKS_PER_SEC /\
  sys_now_at Darwin.CLOCKS_PER_SEC 4294967301999 = Some 5 /\
  sys_now_at Darwin.CLOCKS_PER_SEC (5000 + 1 * U32_MODULUS * 1000) =
    sys_now_at Darwin.CLOCKS_PER_SEC 5000.
Proof.
  assert (H : 1000 <= Darwin.CLOCKS_PER_SEC) by (vm_compute; discriminate).
  split; [exact H|]. split.
  - exact (proj1 (sys_now_wraps_at_32_bits Darwin.CLOCKS_PER_SEC 4294967301999 H)).
  - exact (proj1 (proj2 (sys_now_wraps_at_32_bits Darwin.CLOCKS_PER_SEC 5000 H)) 1).
Defined.

(** C5: for every two counter values [c1 <= c2] whose scaled values both
    lie below [2^32], the reading at [c1] is at most the reading at [c2]. *)
Theorem sys_now_monotone (CPS c1 c2 : N) :
  1000 <= CPS ->
  c1 <= c2 ->
  c1 / (CPS / 1000) < U32_MODULUS ->
  c2 / (CPS / 1000) < U32_MODULUS ->
  exists r1 r2,
    sys_now_at CPS c1 = Some r1 /\
    sys_now_at CPS c2 = Some r2 /\
    r1 <= r2.
Proof.
  intros H Hle H1 H2.
  exists (c1 / (CPS / 1000)), (c2 / (CPS / 1000)).
  rewrite !sys_now_at_formula by assumption.
  rewrite !to_u32_small by assumption.
  split; [reflexivity|]. split; [reflexivity|].
  now apply scaled_monotone.
Qed.

Lemma sys_now_monotone_witness :
  1000 <= Darwin.CLOCKS_PER_SEC /\
  1999 <= 7000 /\
  1999 / (Darwin.CLOCKS_PER_SEC / 1000) < U32_MODULUS /\
  7000 / (Darwin.CLOCKS_PER_SEC / 1000) < U32_MODULUS /\
  exists r1 r2,
    sys_now_at Darwin.CLOCKS_PER_SEC 1999 = Some r1 /\
    sys_now_at Darwin.CLOCKS_PER_SEC 7000 = Some r2 /\
    r1 <= r2.
Proof.
  assert (H : 1000 <= Darwin.CLOCKS_PER_SEC) by (vm_compute; discriminate).
  assert (Hle : 1999 <= 7000) by (vm_compute; discriminate).
  assert (H1 : 1999 / (Darwin.CLOCKS_PER_SEC / 1000) < U32_MODULUS)
    by (vm_compute; reflexivity).
  assert (H2 : 7000 / (Darwin.CLOCKS_PER_SEC / 1000) < U32_MODULUS)
    by (vm_compute; reflexivity).
  split; [exact H|]. split; [exact Hle|]. split; [exact H1|]. split; [exact H2|].
  exact (sys_now_monotone Darwin.CLOCKS_PER_SEC 1999 7000 H Hle H1 H2).
Defined.

Lemma to_u32_succ (x : N) : to_u32 (x + 1) = to_u32 (to_u32 x + 1).
Proof.
  unfold to_u32. now rewrite N.Div0.add_mod_idemp_l.
Qed.

(** C6: on every host whose [CLOCKS_PER_SEC] is a positive multiple of
    1000, [CLOCKS_PER_SEC / 1000] ticks are one millisecond of counter time,
    and advancing the counter by that much advances the reading by exactly
    one in [u32_t] arithmetic: the 32-bit difference of the two readings is
    1, which is not coarser than 50, and the readings themselves differ by
    one as numbers unless the first was the largest [u32_t]. *)
Theorem sys_now_millisecond_resolution (CPS c : N) :
  0 < CPS ->
  CPS mod 1000 = 0 ->
  cpu_time_ms CPS (CPS / 1000) = 1 /\
  exists r r',
    sys_now_at CPS c = Some r /\
    sys_now_at CPS (c + CPS / 1000) = Some r' /\
    r' = to_u32 (r + 1) /\
    u32_sub r' r = 1 /\
    u32_sub r' r <= 50 /\
    (r + 1 < U32_MODULUS -> r' = r + 1).
Proof.
  intros Hpos Hmul.
  assert (H : 1000 <= CPS) by div_lia.
  assert (Hd : CPS / 1000 <> 0) by now apply ms_divisor_nonzero.
  split.
  { rewrite <- scaled_is_cpu_time_ms by assumption. now apply N.div_same. }
  set (d := CPS / 1000) in *.
  assert (Hstep : (c + d) / d = c / d + 1).
  { replace (c + d) with (c + 1 * d) by lia. now apply scaled_add_multiple. }
  exists (to_u32 (c / d)), (to_u32 (c / d + 1)).
  assert (Hsub : u32_sub (to_u32 (c / d + 1)) (to_u32 (c / d)) = 1).
  { rewrite u32_sub_to_u32 by lia.
    replace (c / d + 1 - c / d) with 1 by lia. reflexivity. }
  split; [now apply sys_now_at_formula|].
  split.
  { rewrite sys_now_at_formula by assumption. fold d. now rewrite Hstep. }
  split; [apply to_u32_succ|].
  split; [exact Hsub|].
  split; [rewrite Hsub; discriminate|].
  intros Hsmall. rewrite to_u32_succ. now apply to_u32_small.
Qed.

Lemma sys_now_millisecond_resolution_witness :
  0 < Darwin.CLOCKS_PER_SEC /\
  Darwin.CLOCKS_PER_SEC mod 1000 = 0 /\
  exists r r',
    sys_now_at Darwin.CLOCKS_PER_SEC 4294967295999 = Some r /\
    sys_now_at Darwin.CLOCKS_PER_SEC (4294967295999 + Darwin.CLOCKS_PER_SEC / 1000)
      = Some r' /\
    u32_sub r' r = 1.
Proof.
  split; [reflexivity|]. split; [reflexivity|].
  destruct (sys_now_millisecond_resolution Darwin.CLOCKS_PER_SEC 4294967295999
              eq_refl eq_refl)
    as (_ & r & r' & Hr & Hr' & _ & Hsub & _).
  exists r, r'. split; [exact Hr|]. split; [exact Hr'|]. exact Hsub.
Defined.

(** ** The initialization hook: [sys_init] *)

Lemma sys_init_run {X : Type} (w : world X) : sys_init w = Some (tt, w).
Proof. reflexivity. Qed.

Lemma bind_sys_init {X A : Type} (m : exec X A) (w : world X) :
  bind sys_init (fun _ => m) w = m w.
Proof. reflexivity. Qed.

(** C7: executing [sys_init] in any state leaves every component of the
    state as it was, and nothing that runs afterwards can tell that it
    ran. *)
Theorem sys_init_changes_nothing {X : Type} (s : world X) :
  sys_init s = Some (tt, s) /\
  (forall u s',
      sys_init s = Some (u, s') ->
      cpu_ticks s' = cpu_ticks s /\ real_ms s' = real_ms s /\ rest s' = rest s) /\
  (forall (A : Type) (m : exec X A), bind sys_init (fun _ => m) s = m s).
Proof.
  split; [reflexivity|]. split.
  - intros u s' Hrun. rewrite sys_init_run in Hrun.
    injection Hrun as _ <-. repeat split; reflexivity.
  - intros A m. apply bind_sys_init.
Qed.

(** C8: [sys_init] takes no argument and returns nothing but the unit
    value; in every state, whatever was called before, it completes and
    raises no error, so a run that starts with it goes on as the rest of
    the run. *)
Theorem sys_init_raises_no_error {X : Type} (CPS : N) (w : world X) (evs : list event) :
  sys_init w <> None /\
  (exists w', sys_init w = Some (tt, w')) /\
  run CPS (CallInit :: evs) w = run CPS evs w.
Proof.
  split; [|split].
  - rewrite sys_init_run. discriminate.
  - exists w. apply sys_init_run.
  - simpl. apply bind_sys_init.
Qed.

Lemma sys_init_times_run {X : Type} (n : nat) (w : world X) :
  sys_init_times n w = Some (tt, w).
Proof.
  induction n as [|n IH]; simpl.
  - reflexivity.
  - rewrite bind_sys_init. exact IH.
Qed.

(** Calls of [sys_init] can be dropped from a run without changing it. *)
Lemma run_without_init {X : Type} (CPS : N) (evs : list event) (w : world X) :
  run CPS evs w = run CPS (filter (fun e => negb (is_init e)) evs) w.
Proof.
  revert w. induction evs as [|e evs IH]; intros w.
  - reflexivity.
  - destruct e as [| |ms ticks]; simpl.
    + rewrite bind_sys_init. apply IH.
    + unfold bind. destruct (sys_now CPS w) as [[r w']|]; [|reflexivity].
      rewrite IH. reflexivity.
    + apply IH.
Qed.

(** Over a whole run of the layer the counter only moves forward, and as
    long as the scaled counter has not reached [2^32] the readings come out
    in non-decreasing order. *)
Lemma run_readings_sorted {X : Type} (CPS : N) (evs : list event) :
  1000 <= CPS ->
  forall (w w' : world X) (rs : list N),
    run CPS evs w = Some (rs, w') ->
    cpu_ticks w' / (CPS / 1000) < U32_MODULUS ->
    cpu_ticks w <= cpu_ticks w' /\
    Forall (fun r => cpu_ticks w / (CPS / 1000) <= r <= cpu_ticks w' / (CPS / 1000)) rs /\
    StronglySorted N.le rs.
Proof.
  intros H. induction evs as [|e evs IH]; intros w w' rs Hrun Hend.
  - injection Hrun as <- <-. repeat split; [lia | constructor | constructor].
  - destruct e as [| |ms k]; simpl in Hrun.
    + rewrite bind_sys_init in Hrun. now apply IH.
    + unfold bind in Hrun. rewrite sys_now_run, sys_now_at_formula in Hrun by assumption.
      destruct (run CPS evs w) as [[rs0 w0]|] eqn:E; [|discriminate].
      injection Hrun as <- <-.
      destruct (IH _ _ _ E Hend) as (Hle & Hall & Hsorted).
      assert (Hc : cpu_ticks w / (CPS / 1000) <= cpu_ticks w0 / (CPS / 1000))
        by now apply scaled_monotone.
      rewrite to_u32_small by (unfold is_u32; lia).
      split; [exact Hle|]. split.
      * constructor; [lia | exact Hall].
      * constructor; [exact Hsorted|].
        eapply Forall_impl; [|exact Hall]. intros r Hr. apply Hr.
    + destruct (IH _ _ _ Hrun Hend) as (Hle & Hall & Hsorted).
      simpl in Hle, Hall.
      assert (Hc : cpu_ticks w / (CPS / 1000) <= (cpu_ticks w + k) / (CPS / 1000))
        by (apply scaled_monotone; lia).
      split; [lia|]. split; [|exact Hsorted].
      eapply Forall_impl; [|exact Hall]. intros r Hr. simpl in Hr. lia.
Qed.

(** C9: for every [n >= 1], calling [sys_init] [n] times is the same as
    calling it once; and in any interleaving of [sys_init] calls, [sys_now]
    calls and passage of time, the [sys_now] readings (and the final
    state) are those of the interleaving with the [sys_init] calls
    removed. *)
Theorem sys_init_idempotent {X : Type} (CPS : N) (n : nat) (w : world X)
        (evs : list event) :
  (1 <= n)%nat ->
  sys_init_times n w = sys_init w /\
  run CPS evs w = run CPS (filter (fun e => negb (is_init e)) evs) w.
Proof.
  intros _. split.
  - rewrite sys_init_times_run, sys_init_run. reflexivity.
  - apply run_without_init.
Qed.

Lemma sys_init_idempotent_witness :
  (1 <= 3)%nat /\
  sys_init_times 3 (idle_world 42000 7) = sys_init (idle_world 42000 7) /\
  run Darwin.CLOCKS_PER_SEC
      [CallInit; CallNow; CallInit; Elapse 5 3000; CallInit; CallNow]
      (idle_world 42000 7) =
  run Darwin.CLOCKS_PER_SEC
      [CallNow; Elapse 5 3000; CallNow]
      (idle_world 42000 7).
Proof.
  split; [lia|].
  exact (sys_init_idempotent Darwin.CLOCKS_PER_SEC 3 (idle_world 42000 7)
           [CallInit; CallNow; CallInit; Elapse 5 3000; CallInit; CallNow]
           ltac:(lia)).
Defined.

(** C10: the value [sys_now] returns depends on the counter value and on
    [CLOCKS_PER_SEC] only.  Two states that agree on the counter, whatever
    else they hold, give the same result (or are both undefined), and
    calling twice without the counter moving gives the same value twice. *)
Theorem sys_now_deterministic {X Y : Type} (CPS : N) (w1 : world X) (w2 : world Y) :
  cpu_ticks w1 = cpu_ticks w2 ->
  option_map fst (sys_now CPS w1) = option_map fst (sys_now CPS w2) /\
  option_map fst (sys_now CPS w1) = sys_now_at CPS (cpu_ticks w1) /\
  bind (sys_now CPS) (fun r1 => bind (sys_now CPS) (fun r2 => ret (r1, r2))) w1 =
  bind (sys_now CPS) (fun r => ret (r, r)) w1.
Proof.
  intros Hc.
  assert (Hat : forall Z (w : world Z),
             option_map fst (sys_now CPS w) = sys_now_at CPS (cpu_ticks w)).
  { intros Z w. rewrite sys_now_run.
    destruct (sys_now_at CPS (cpu_ticks w)); reflexivity. }
  split; [|split].
  - rewrite !Hat, Hc. reflexivity.
  - apply Hat.
  - unfold bind. rewrite sys_now_run.
    destruct (sys_now_at CPS (cpu_ticks w1)) as [r|] eqn:E; [|reflexivity].
    rewrite sys_now_run, E. reflexivity.
Qed.

Lemma sys_now_deterministic_witness :
  cpu_ticks (idle_world 123456789 1000) =
  cpu_ticks {| cpu_ticks := 123456789; real_ms := 999999; rest := [true; false] |} /\
  option_map fst (sys_now Darwin.CLOCKS_PER_SEC (idle_world 123456789 1000)) =
  option_map fst
    (sys_now Darwin.CLOCKS_PER_SEC
       {| cpu_ticks := 123456789; real_ms := 999999; rest := [true; false] |}).
Proof.
  split; [reflexivity|].
  exact (proj1 (sys_now_deterministic Darwin.CLOCKS_PER_SEC
                  (idle_world 123456789 1000)
                  {| cpu_ticks := 123456789; real_ms := 999999;
                     rest := [true; false] |}
                  eq_refl)).
Defined.


(** ** Further properties of the clock *)

Lemma u32_sub_diag (r : N) : u32_sub r r = 0.
Proof.
  unfold u32_sub. rewrite Z.sub_diag. reflexivity.
Qed.

(** X1: [sys_now] has no result exactly on the hosts whose
    [CLOCKS_PER_SEC] is below 1000, whatever the counter shows: there the
    divisor [CLOCKS_PER_SEC / 1000] is zero. *)
Theorem sys_now_undefined_iff {X : Type} (CPS : N) (w : world X) :
  sys_now CPS w = None <-> CPS < 1000.
Proof.
  split.
  - intros Hnone. apply N.lt_nge. intros Hle.
    apply (proj2 (sys_now_defined_iff CPS w) Hle). exact Hnone.
  - intros Hlt. rewrite sys_now_run, sys_now_at_undefined by assumption.
    reflexivity.
Qed.

(** X2: the interval a caller measures between two readings taken [k]
    ticks apart is off by at most one: the 32-bit difference is the
    quotient of [k] by the divisor or one more, reduced to 32 bits,
    wherever the counter stood and whether or not a reading wrapped. *)
Theorem sys_now_interval_error {X : Type} (CPS : N) (w : world X) (ms k : N) :
  1000 <= CPS ->
  exists rA rB,
    sys_now CPS w = Some (rA, w) /\
    sys_now CPS (elapse ms k w) = Some (rB, elapse ms k w) /\
    (u32_sub rB rA = to_u32 (k / (CPS / 1000)) \/
     u32_sub rB rA = to_u32 (k / (CPS / 1000) + 1)).
Proof.
  intros H.
  destruct (sys_now_difference CPS w ms k H) as (rA & rB & HA & HB & Hsub).
  exists rA, rB. split; [exact HA|]. split; [exact HB|].
  rewrite Hsub.
  assert (Hd : CPS / 1000 <> 0) by now apply ms_divisor_nonzero.
  pose proof (scaled_difference (CPS / 1000) (cpu_ticks w) k Hd) as [Hlo Hhi].
  destruct (N.eq_dec ((cpu_ticks w + k) / (CPS / 1000) - cpu_ticks w / (CPS / 1000))
                     (k / (CPS / 1000))) as [E|NE].
  - left. now rewrite E.
  - right. f_equal. lia.
Qed.

Lemma sys_now_interval_error_witness :
  1000 <= Darwin.CLOCKS_PER_SEC /\
  exists rA rB,
    sys_now Darwin.CLOCKS_PER_SEC (idle_world 4294967295900 0) =
      Some (rA, idle_world 4294967295900 0) /\
    sys_now Darwin.CLOCKS_PER_SEC (elapse 3 2500 (idle_world 4294967295900 0)) =
      Some (rB, elapse 3 2500 (idle_world 4294967295900 0)) /\
    (u32_sub rB rA = 2 \/ u32_sub rB rA = 3).
Proof.
  assert (H : 1000 <= Darwin.CLOCKS_PER_SEC) by (vm_compute; discriminate).
  split; [exact H|].
  exact (sys_now_interval_error Darwin.CLOCKS_PER_SEC
           (idle_world 4294967295900 0) 3 2500 H).
Defined.

(** X3: two readings taken [k] ticks apart, with [k] no more than
    [2^32 - 1] divisors, are equal exactly when the counter crossed no
    divisor boundary in between, and then [k] is less than one divisor:
    within that span equal readings mean less than a millisecond of
    processor time. *)
Theorem sys_now_equal_readings (CPS c k : N) :
  1000 <= CPS ->
  k <= (U32_MODULUS - 1) * (CPS / 1000) ->
  (sys_now_at CPS (c + k) = sys_now_at CPS c <->
   (c + k) / (CPS / 1000) = c / (CPS / 1000)) /\
  (sys_now_at CPS (c + k) = sys_now_at CPS c -> k < CPS / 1000).
Proof.
  intros H Hk.
  assert (Hd : CPS / 1000 <> 0) by now apply ms_divisor_nonzero.
  rewrite !sys_now_at_formula by assumption.
  set (d := CPS / 1000) in *.
  assert (Hquot : Some (to_u32 ((c + k) / d)) = Some (to_u32 (c / d)) ->
                  (c + k) / d = c / d).
  { intros Heq. injection Heq as Heq.
    assert (Hmono : c / d <= (c + k) / d) by (apply scaled_monotone; lia).
    pose proof (u32_sub_to_u32 _ _ Hmono) as Hsub.
    rewrite Heq, u32_sub_diag in Hsub.
    assert (Hsmall : is_u32 ((c + k) / d - c / d)).
    { unfold is_u32. unfold U32_MODULUS in *.
      change (2 ^ 32) with 4294967296 in *.
      destruct (N.eq_dec k (4294967295 * d)) as [E|NE].
      - subst k. rewrite scaled_add_multiple by assumption. lia.
      - pose proof (scaled_difference d c k Hd) as [_ Hhi].
        assert (k / d < 4294967295)
          by (apply N.Div0.div_lt_upper_bound; lia).
        lia. }
    rewrite to_u32_small in Hsub by assumption. lia. }
  split; [split|].
  - exact Hquot.
  - intros ->. reflexivity.
  - intros Heq. specialize (Hquot Heq). clear - Hd Hquot. div_nia.
Qed.

Lemma sys_now_equal_readings_witness :
  1000 <= Darwin.CLOCKS_PER_SEC /\
  999 <= (U32_MODULUS - 1) * (Darwin.CLOCKS_PER_SEC / 1000) /\
  (sys_now_at Darwin.CLOCKS_PER_SEC (7000 + 999) =
   sys_now_at Darwin.CLOCKS_PER_SEC 7000 -> 999 < Darwin.CLOCKS_PER_SEC / 1000).
Proof.
  assert (H : 1000 <= Darwin.CLOCKS_PER_SEC) by (vm_compute; discriminate).
  assert (Hk : 999 <= (U32_MODULUS - 1) * (Darwin.CLOCKS_PER_SEC / 1000))
    by (vm_compute; discriminate).
  split; [exact H|]. split; [exact Hk|].
  exact (proj2 (sys_now_equal_readings Darwin.CLOCKS_PER_SEC 7000 999 H Hk)).
Defined.

(** X4: on a host with [CLOCKS_PER_SEC] at least 1000 the value [sys_now]
    scales the counter to is never below the true whole milliseconds of
    processor time and never above twice that plus one: rounding the
    divisor down makes the clock run fast, by less than a factor of two. *)
Theorem sys_now_scale_error (CPS c : N) :
  1000 <= CPS ->
  sys_now_at CPS c = Some (to_u32 (c / (CPS / 1000))) /\
  cpu_time_ms CPS c <= c / (CPS / 1000) <= 2 * cpu_time_ms CPS c + 1.
Proof.
  intros H. split; [now apply sys_now_at_formula|].
  unfold cpu_time_ms.
  assert (Hd : CPS / 1000 <> 0) by now apply ms_divisor_nonzero.
  set (d := CPS / 1000) in *.
  assert (Hlo : 1000 * d <= CPS) by (subst d; div_lia).
  assert (Hhi : CPS < 2000 * d) by (subst d; div_lia).
  split.
  - apply N.div_le_lower_bound; [exact Hd|].
    assert (Hm : CPS * (c * 1000 / CPS) <= c * 1000)
      by (apply N.Div0.mul_div_le).
    nia.
  - assert (Hq : c / d < 2 * (c * 1000 / CPS) + 2); [|lia].
    apply N.Div0.div_lt_upper_bound.
    assert (Hm : c * 1000 < CPS * (c * 1000 / CPS + 1)).
    { rewrite N.mul_add_distr_l, N.mul_1_r.
      pose proof (N.div_mod (c * 1000) CPS ltac:(lia)) as Hdm.
      pose proof (N.mod_lt (c * 1000) CPS ltac:(lia)) as Hml.
      lia. }
    nia.
Qed.

Lemma sys_now_scale_error_witness :
  1000 <= 1999 /\
  sys_now_at 1999 3998000 = Some 3998000 /\
  cpu_time_ms 1999 3998000 = 2000000.
Proof.
  split; [vm_compute; discriminate|].
  split.
  - exact (proj1 (sys_now_scale_error 1999 3998000 ltac:(vm_compute; discriminate))).
  - reflexivity.
Defined.

(** X5: the cast to [u32_t] loses nothing exactly while the counter is
    below [2^32] divisors: the reading is the scaled counter itself for
    those values and for no other, and at [2^32] divisors it is back at
    zero. *)
Theorem sys_now_first_wrap (CPS c : N) :
  1000 <= CPS ->
  (sys_now_at CPS c = Some (c / (CPS / 1000)) <->
   c < U32_MODULUS * (CPS / 1000)) /\
  sys_now_at CPS (U32_MODULUS * (CPS / 1000)) = Some 0.
Proof.
  intros H.
  assert (Hd : CPS / 1000 <> 0) by now apply ms_divisor_nonzero.
  rewrite !sys_now_at_formula by assumption.
  set (d := CPS / 1000) in *.
  split; [split|].
  - intros Heq. injection Heq as Heq.
    pose proof (to_u32_is_u32 (c / d)) as Hu. rewrite Heq in Hu.
    unfold is_u32 in Hu.
    pose proof (N.div_mod c d Hd) as Hdm.
    pose proof (N.mod_lt c d Hd) as Hml. nia.
  - intros Hlt. f_equal. apply to_u32_small. unfold is_u32.
    apply N.Div0.div_lt_upper_bound. lia.
  - rewrite N.div_mul by assumption.
    unfold to_u32. now rewrite N.Div0.mod_same.
Qed.

Lemma sys_now_first_wrap_witness :
  1000 <= Darwin.CLOCKS_PER_SEC /\
  (sys_now_at Darwin.CLOCKS_PER_SEC 4294967295999 = Some 4294967295 <->
   4294967295999 < U32_MODULUS * (Darwin.CLOCKS_PER_SEC / 1000)) /\
  sys_now_at Darwin.CLOCKS_PER_SEC 4294967296000 = Some 0.
Proof.
  assert (H : 1000 <= Darwin.CLOCKS_PER_SEC) by (vm_compute; discriminate).
  split; [exact H|].
  exact (sys_now_first_wrap Darwin.CLOCKS_PER_SEC 4294967295999 H).
Defined.

(** ** Further properties of whole runs *)

(** A run without a [sys_now] call only lets time pass. *)
Lemma run_without_now {X : Type} (CPS : N) (evs : list event) (w : world X) :
  existsb is_now evs = false ->
  run CPS evs w = Some ([], time_passed evs w).
Proof.
  revert w. induction evs as [|e evs IH]; intros w Hnone.
  - reflexivity.
  - destruct e as [| |ms k]; simpl in *.
    + rewrite bind_sys_init. now apply IH.
    + discriminate.
    + now apply IH.
Qed.

(** On a host where [sys_now] is undefined a run stops at its first
    [sys_now] call. *)
Lemma run_undefined {X : Type} (CPS : N) (evs : list event) (w : world X) :
  CPS < 1000 ->
  existsb is_now evs = true ->
  run CPS evs w = None.
Proof.
  intros Hlt. revert w. induction evs as [|e evs IH]; intros w Hnow.
  - discriminate.
  - destruct e as [| |ms k]; simpl in *.
    + rewrite bind_sys_init. now apply IH.
    + unfold bind. rewrite sys_now_run, sys_now_at_undefined by assumption.
      reflexivity.
    + now apply IH.
Qed.

(** On a host where [sys_now] is defined every run goes through, and the
    world it ends in is the one the passage of time alone leads to. *)
Lemma run_result {X : Type} (CPS : N) (evs : list event) (w : world X) :
  1000 <= CPS ->
  exists rs,
    run CPS evs w = Some (rs, time_passed evs w) /\
    length rs = length (filter is_now evs) /\
    Forall is_u32 rs.
Proof.
  intros H. revert w. induction evs as [|e evs IH]; intros w.
  - exists []. repeat split; constructor.
  - destruct e as [| |ms k]; simpl.
    + rewrite bind_sys_init. apply IH.
    + destruct (IH w) as (rs & Hrun & Hlen & Hall).
      exists (to_u32 (cpu_ticks w / (CPS / 1000)) :: rs).
      unfold bind. rewrite sys_now_run, sys_now_at_formula by assumption.
      rewrite Hrun. simpl. split; [reflexivity|]. split; [now rewrite Hlen|].
      constructor; [apply to_u32_is_u32 | exact Hall].
    + apply IH.
Qed.

Lemma time_passed_frame {X : Type} (evs : list event) (w : world X) :
  rest (time_passed evs w) = rest w /\
  cpu_ticks w <= cpu_ticks (time_passed evs w) /\
  real_ms w <= real_ms (time_passed evs w).
Proof.
  revert w. induction evs as [|e evs IH]; intros w.
  - simpl. repeat split; lia.
  - destruct e as [| |ms k]; simpl; try apply IH.
    destruct (IH (elapse ms k w)) as (Hrest & Hticks & Hreal).
    simpl in *. repeat split; [exact Hrest | lia | lia].
Qed.

(** X6: on a host with [CLOCKS_PER_SEC] at least 1000 every sequence of
    [sys_init] calls, [sys_now] calls and passage of time runs to its end;
    it yields one reading below [2^32] for each [sys_now] call, and the two
    functions leave no trace: the final state is the one the passage of
    time alone produces, with everything but the two clocks untouched and
    the clocks never set back. *)
Theorem run_total_and_frame {X : Type} (CPS : N) (evs : list event) (w : world X) :
  1000 <= CPS ->
  exists rs w',
    run CPS evs w = Some (rs, w') /\
    w' = time_passed evs w /\
    length rs = length (filter is_now evs) /\
    Forall is_u32 rs /\
    rest w' = rest w /\
    cpu_ticks w <= cpu_ticks w' /\
    real_ms w <= real_ms w'.
Proof.
  intros H.
  destruct (run_result CPS evs w H) as (rs & Hrun & Hlen & Hall).
  exists rs, (time_passed evs w).
  split; [exact Hrun|]. split; [reflexivity|].
  split; [exact Hlen|]. split; [exact Hall|].
  apply time_passed_frame.
Qed.

Lemma run_total_and_frame_witness :
  1000 <= Darwin.CLOCKS_PER_SEC /\
  exists rs w',
    run Darwin.CLOCKS_PER_SEC
        [CallInit; CallNow; Elapse 5 3000; CallNow; CallInit]
        {| cpu_ticks := 42000; real_ms := 7; rest := [true; false] |} =
      Some (rs, w') /\
    length rs = 2%nat /\
    rest w' = [true; false].
Proof.
  assert (H : 1000 <= Darwin.CLOCKS_PER_SEC) by (vm_compute; discriminate).
  split; [exact H|].
  destruct (run_total_and_frame Darwin.CLOCKS_PER_SEC
              [CallInit; CallNow; Elapse 5 3000; CallNow; CallInit]
              {| cpu_ticks := 42000; real_ms := 7; rest := [true; false] |} H)
    as (rs & w' & Hrun & _ & Hlen & _ & Hrest & _).
  exists rs, w'. split; [exact Hrun|]. split; [exact Hlen | exact Hrest].
Defined.

(** X7: a run of the layer has no result exactly when the host's
    [CLOCKS_PER_SEC] is below 1000 and the run contains a [sys_now] call;
    [sys_init] and the passage of time never make a run fail. *)
Theorem run_undefined_iff {X : Type} (CPS : N) (evs : list event) (w : world X) :
  run CPS evs w = None <-> CPS < 1000 /\ existsb is_now evs = true.
Proof.
  split.
  - intros Hnone. split.
    + apply N.lt_nge. intros Hle.
      destruct (run_result CPS evs w Hle) as (rs & Hrun & _).
      rewrite Hrun in Hnone. discriminate.
    + destruct (existsb is_now evs) eqn:E; [reflexivity|].
      rewrite run_without_now in Hnone by assumption. discriminate.
  - intros [Hlt Hnow]. now apply run_undefined.
Qed.

(** X8: as long as the scaled counter has not reached [2^32] at the end
    of a run, the readings the run yields are in non-decreasing order, each
    between the scaled counter at the start and at the end. *)
Theorem run_readings_never_decrease {X : Type} (CPS : N) (evs : list event)
        (w : world X) :
  1000 <= CPS ->
  cpu_ticks (time_passed evs w) / (CPS / 1000) < U32_MODULUS ->
  exists rs,
    run CPS evs w = Some (rs, time_passed evs w) /\
    StronglySorted N.le rs /\
    Forall (fun r => cpu_ticks w / (CPS / 1000) <= r
                     <= cpu_ticks (time_passed evs w) / (CPS / 1000)) rs.
Proof.
  intros H Hend.
  destruct (run_result CPS evs w H) as (rs & Hrun & _).
  exists rs. split; [exact Hrun|].
  destruct (run_readings_sorted CPS evs H w _ rs Hrun Hend) as (_ & Hall & Hsorted).
  split; [exact Hsorted | exact Hall].
Qed.

Lemma run_readings_never_decrease_witness :
  1000 <= Darwin.CLOCKS_PER_SEC /\
  cpu_ticks (time_passed [CallNow; Elapse 5 3000; CallInit; CallNow; Elapse 1 999; CallNow]
               (idle_world 42000 7)) / (Darwin.CLOCKS_PER_SEC / 1000) < U32_MODULUS /\
  exists rs,
    run Darwin.CLOCKS_PER_SEC
        [CallNow; Elapse 5 3000; CallInit; CallNow; Elapse 1 999; CallNow]
        (idle_world 42000 7) =
      Some (rs, idle_world 45999 13) /\
    StronglySorted N.le rs.
Proof.
  assert (H : 1000 <= Darwin.CLOCKS_PER_SEC) by (vm_compute; discriminate).
  assert (Hend : cpu_ticks (time_passed
                   [CallNow; Elapse 5 3000; CallInit; CallNow; Elapse 1 999; CallNow]
                   (idle_world 42000 7)) / (Darwin.CLOCKS_PER_SEC / 1000) < U32_MODULUS)
    by (vm_compute; reflexivity).
  split; [exact H|]. split; [exact Hend|].
  destruct (run_readings_never_decrease Darwin.CLOCKS_PER_SEC
              [CallNow; Elapse 5 3000; CallInit; CallNow; Elapse 1 999; CallNow]
              (idle_world 42000 7) H Hend) as (rs & Hrun & Hsorted & _).
  exists rs. split; [exact Hrun | exact Hsorted].
Defined.
